(** * German Tank Problem front end: a shallow embedding in Rocq

    The modelled sources are the React/TypeScript client of the repository:
    - [src/frontend/src/components/SimulationControls.tsx] (input validation),
    - [src/frontend/src/App.tsx] (the accuracy-sweep request it builds),
    - [src/frontend/src/types/simulation.ts] (the data contracts and the API
      client with its base-URL derivation),
    - the chart components (histogram binning, posterior plot).
    The Flask engine itself is not part of the sources; the few pieces of it
    that some properties depend on are modelled from the specification and
    say so in their doc comments. Numbers are integers ([Z]) where the code
    only ever handles integers (slider values, sample sizes) and exact
    rationals ([Q]) where the code handles JavaScript numbers. *)

From Stdlib Require Import ZArith QArith Qround Qminmax Qabs Lqa List String Ascii Bool Lia Sorted.
Import ListNotations.

(* ------------------------------------------------------------------ *)
(** ** SimulationControls.tsx *)

Module SimulationControls.

Open Scope Z_scope.

(** [const isValid = sampleSize < truePopulation && sampleSize >= 2
      && truePopulation >= 100;]  The button calling [onSimulate] is
    [disabled={isLoading || !isValid}]. *)
Definition isValid (truePopulation sampleSize : Z) : bool :=
  (sampleSize <? truePopulation) && (sampleSize >=? 2) && (truePopulation >=? 100).

(** Submission happens (the button is enabled and clicked) exactly when
    nothing is loading and [isValid] holds. *)
Definition canSubmit (isLoading : bool) (truePopulation sampleSize : Z) : bool :=
  negb (isLoading || negb (isValid truePopulation sampleSize)).

(** The values an [<input type="range" min max step>] can take: [min] plus
    a whole number of steps, not above [max]. *)
Definition slider_values (min max step : Z) : list Z :=
  map (fun j => min + step * Z.of_nat j) (seq 0 (S (Z.to_nat ((max - min) / step)))).

(** [<input type="range" min="100" max="10000" step="100" value={truePopulation}>] *)
Definition populationSlider : list Z := slider_values 100 10000 100.

(** [<input type="range" min="2" max="100" step="1" value={sampleSize}>] *)
Definition sampleSizeSlider : list Z := slider_values 2 100 1.

End SimulationControls.

(* ------------------------------------------------------------------ *)
(** ** App.tsx: the accuracy-analysis request of [handleSimulate] *)

Module App.

Open Scope Z_scope.

Definition minSample : Z := 5.
Definition numPoints : Z := 10.

(** [const maxSample = Math.max(sampleSize * 2, 100);] *)
Definition maxSample (sampleSize : Z) : Z := Z.max (sampleSize * 2) 100.

(** [const step = Math.floor((maxSample - minSample) / (numPoints - 1));]
    [Z.div] rounds towards minus infinity, as [Math.floor] of the quotient. *)
Definition step (sampleSize : Z) : Z :=
  (maxSample sampleSize - minSample) / (numPoints - 1).

(** [Array.from({ length: numPoints }, (_, i) => minSample + i * step)] *)
Definition sampleSizes (sampleSize : Z) : list Z :=
  map (fun i => minSample + Z.of_nat i * step sampleSize)
      (seq 0 (Z.to_nat numPoints)).

(** What a [catch] clause receives: an [Error] object, with its [message],
    or any other thrown value. *)
Inductive Thrown :=
| ErrorValue (message : string)
| OtherValue.

(** [err instanceof Error ? err.message
      : 'Simulation failed. Please check that the backend is running.'] *)
Definition error_message (err : Thrown) : string :=
  match err with
  | ErrorValue m => m
  | OtherValue => "Simulation failed. Please check that the backend is running."
  end.

(** The two requests [handleSimulate] sends, in the order sent. *)
Inductive Request :=
| PostSimulate (true_population sample_size : Z)
| PostAccuracy (true_population : Z) (sample_sizes : list Z).

(** The four [useState] hooks of [App]. *)
Record AppState (SimulationResponse AccuracyResponse : Type) := mkAppState {
  simulationData : option SimulationResponse;
  accuracyData : option AccuracyResponse;
  isLoading : bool;
  error : option string
}.
Arguments mkAppState {_ _}.
Arguments simulationData {_ _}.
Arguments accuracyData {_ _}.
Arguments isLoading {_ _}.
Arguments error {_ _}.

Section HandleSimulate.

Variables SimulationResponse AccuracyResponse : Type.

(** The backend, as the two service calls: each either throws or resolves. *)
Variable runSimulation : Z -> Z -> Thrown + SimulationResponse.
Variable getAccuracyAnalysis : Z -> list Z -> Thrown + AccuracyResponse.

(** [handleSimulate(truePopulation, sampleSize)] run to completion: the
    state it leaves behind once its [finally] clause has run, and the
    requests it sent. [console.error] has no effect on the state. *)
Definition handleSimulate (st : AppState SimulationResponse AccuracyResponse)
    (truePopulation sampleSize : Z)
    : AppState SimulationResponse AccuracyResponse * list Request :=
  (* setIsLoading(true); setError(null); *)
  let st := mkAppState (simulationData st) (accuracyData st) true None in
  let '(st, sent) :=
    match runSimulation truePopulation sampleSize with
    | inl err =>
        (mkAppState (simulationData st) (accuracyData st) (isLoading st)
                    (Some (error_message err)),
         [PostSimulate truePopulation sampleSize])
    | inr simResult =>
        let st := mkAppState (Some simResult) (accuracyData st) (isLoading st)
                             (error st) in
        let sizes := sampleSizes sampleSize in
        let sent := [PostSimulate truePopulation sampleSize;
                     PostAccuracy truePopulation sizes] in
        match getAccuracyAnalysis truePopulation sizes with
        | inl err =>
            (mkAppState (simulationData st) (accuracyData st) (isLoading st)
                        (Some (error_message err)), sent)
        | inr accuracyResult =>
            (mkAppState (simulationData st) (Some accuracyResult) (isLoading st)
                        (error st), sent)
        end
    end in
  (* finally { setIsLoading(false); } *)
  (mkAppState (simulationData st) (accuracyData st) false (error st), sent).

End HandleSimulate.

Arguments handleSimulate {_ _} _ _ _ _ _.

End App.

(* ------------------------------------------------------------------ *)
(** ** The accuracy sweep behind [POST /api/accuracy] *)

Module AccuracySweep.

Open Scope Z_scope.

(** [interface AccuracyDataPoint { sample_size; naive_rmse; mvue_rmse }] *)
Record AccuracyDataPoint := {
  sample_size : Z;
  naive_rmse : Q;
  mvue_rmse : Q
}.

(** Modelled from the spec: the engine's accuracy sweep (spec 4.3), which is
    not among the sources. Every requested [k] is checked against the
    Scenario invariant before any work ([k < N] and [k >= 2]); the spec's
    recommended fail-fast policy rejects the whole request otherwise. Each
    entry is produced by one Monte Carlo run, represented by [rmse], which
    returns the pair (naive RMSE, MVUE RMSE) of a run for [(N, k)]; the
    output preserves the input order. *)
Definition accuracy (rmse : Z -> Z -> Q * Q) (true_population : Z)
    (sample_sizes : list Z) : option (list AccuracyDataPoint) :=
  if forallb (fun k => (k <? true_population) && (2 <=? k)) sample_sizes
  then Some (map (fun k => {| sample_size := k;
                              naive_rmse := fst (rmse true_population k);
                              mvue_rmse := snd (rmse true_population k) |})
                 sample_sizes)
  else None.

End AccuracySweep.

(* ------------------------------------------------------------------ *)
(** ** The engine's error kinds and point estimators *)

Module Estimator.

Open Scope Q_scope.

(** Spec 7: the error taxonomy of the engine. *)
Inductive EngineError := InvalidParameter | GridTooLarge.

(** Modelled from the spec: [naive_estimate] of the engine (spec 4.1),
    whose source is not among the files; the client only prints the
    formula ([Naive: N = m] in the footer of App.tsx). *)
Definition naive_estimate (m : Q) : Q := m.

(** Modelled from the spec: [mvue_estimate] of the engine (spec 4.1),
    [m (1 + 1/k) - 1], refusing [k = 0]; the client only prints the formula
    ([MVUE: N = m(1 + 1/k) - 1] in the footer of App.tsx). Exact rational
    arithmetic stands for the engine's floating point. *)
Definition mvue_estimate (m : Q) (k : Z) : EngineError + Q :=
  if Z.eqb k 0 then inl InvalidParameter
  else inr (m * (1 + 1 / inject_Z k) - 1).

End Estimator.

(* ------------------------------------------------------------------ *)
(** ** types/simulation.ts: the interfaces as TypeScript type terms *)

Module Types.

Open Scope string_scope.

Local Set Warnings "-register-all".

(** The fragment of TypeScript's type language the module uses. *)
Inductive tsType :=
| TNumber
| TArray (elem : tsType)
| TObject (fields : list (string * tsType))
| TRef (name : string).

Definition SimulationRequest : tsType :=
  TObject [("true_population", TNumber); ("sample_size", TNumber)].

Definition SimulationResponse : tsType :=
  TObject [("true_population", TNumber);
           ("sample_size", TNumber);
           ("naive_estimates", TArray TNumber);
           ("mvue_estimates", TArray TNumber);
           ("naive_rmse", TNumber);
           ("mvue_rmse", TNumber);
           ("naive_bias", TNumber);
           ("mvue_bias", TNumber);
           ("metadata", TObject [("iterations", TNumber);
                                 ("computation_time_ms", TNumber)])].

Definition AccuracyRequest : tsType :=
  TObject [("true_population", TNumber); ("sample_sizes", TArray TNumber)].

Definition AccuracyResponse : tsType :=
  TObject [("true_population", TNumber);
           ("results", TArray (TRef "AccuracyDataPoint"))].

Definition AccuracyDataPoint : tsType :=
  TObject [("sample_size", TNumber); ("naive_rmse", TNumber);
           ("mvue_rmse", TNumber)].

Definition HistogramBin : tsType :=
  TObject [("estimate", TNumber); ("naive_count", TNumber);
           ("mvue_count", TNumber)].

(** The [export interface] declarations of types/simulation.ts, in order. *)
Definition simulation_exports : list (string * tsType) :=
  [("SimulationRequest", SimulationRequest);
   ("SimulationResponse", SimulationResponse);
   ("AccuracyRequest", AccuracyRequest);
   ("AccuracyResponse", AccuracyResponse);
   ("AccuracyDataPoint", AccuracyDataPoint);
   ("HistogramBin", HistogramBin)].

(** Name resolution of an import from '../types/simulation'. *)
Fixpoint lookup (name : string) (env : list (string * tsType)) : option tsType :=
  match env with
  | [] => None
  | (n, t) :: env' => if String.eqb n name then Some t else lookup name env'
  end.

Definition resolve_export (name : string) : option tsType :=
  lookup name simulation_exports.

(** An import declaration resolves when every imported name does. *)
Fixpoint resolve_imports (names : list string) : option (list tsType) :=
  match names with
  | [] => Some []
  | n :: ns =>
      match resolve_export n, resolve_imports ns with
      | Some t, Some ts => Some (t :: ts)
      | _, _ => None
      end
  end.

(** [import { ... } from '../types/simulation'] of the API client. *)
Definition api_imports : list string :=
  ["SimulationRequest"; "SimulationResponse"; "AccuracyRequest";
   "AccuracyResponse"; "BayesianRequest"; "BayesianResponse"].

(** [import { BayesianResponse } from '../types/simulation'] of BayesianChart. *)
Definition bayesian_chart_imports : list string := ["BayesianResponse"].

Definition field_names (t : tsType) : list string :=
  match t with
  | TObject fs => map fst fs
  | _ => []
  end.

Definition field (t : tsType) (name : string) : option tsType :=
  match t with
  | TObject fs => lookup name fs
  | _ => None
  end.

(** A type, with a named interface replaced by its declaration. *)
Definition deref (t : tsType) : option tsType :=
  match t with
  | TRef n => resolve_export n
  | _ => Some t
  end.

(** The type of a property access path such as [data.metadata.iterations]
    ([["metadata"; "iterations"]]); ["[]"] stands for an array element. *)
Fixpoint resolve_path (t : tsType) (path : list string) : option tsType :=
  match path with
  | [] => deref t
  | seg :: p =>
      match deref t with
      | Some (TArray e) => if String.eqb seg "[]" then resolve_path e p else None
      | Some t' =>
          match field t' seg with
          | Some t'' => resolve_path t'' p
          | None => None
          end
      | None => None
      end
  end.

(** Reads of [simulationData] in App.tsx (the metrics panel). *)
Definition app_reads : list (list string) :=
  [["true_population"]; ["sample_size"]; ["metadata"; "iterations"];
   ["metadata"; "computation_time_ms"]; ["naive_rmse"]; ["mvue_rmse"]].

(** Reads of [data] in DistributionChart (histogram, reference line,
    insights). *)
Definition distribution_chart_reads : list (list string) :=
  [["naive_estimates"]; ["mvue_estimates"]; ["true_population"];
   ["naive_bias"]; ["mvue_bias"]].

(** Reads of [data] in AccuracyChart: [data.results] and the line chart's
    [dataKey]s on each result. *)
Definition accuracy_chart_reads : list (list string) :=
  [["results"]; ["results"; "[]"; "sample_size"];
   ["results"; "[]"; "naive_rmse"]; ["results"; "[]"; "mvue_rmse"]].

(** Keys of the request literals built by [handleSimulate]:
    [{ true_population: truePopulation, sample_size: sampleSize }] and
    [{ true_population: truePopulation, sample_sizes: sampleSizes }]. *)
Definition simulation_request_keys : list string := ["true_population"; "sample_size"].
Definition accuracy_request_keys : list string := ["true_population"; "sample_sizes"].

End Types.

(* ------------------------------------------------------------------ *)
(** ** The Bayesian posterior behind [POST /api/bayesian] and BayesianChart *)

Module Bayesian.

Import Estimator.
Open Scope Q_scope.

(** Binomial coefficients by Pascal's rule. *)
Fixpoint binom (n k : nat) : nat :=
  match n, k with
  | _, O => 1
  | O, S _ => 0
  | S n', S k' => binom n' k' + binom n' (S k')
  end.

Definition binomQ (n k : nat) : Q := inject_Z (Z.of_nat (binom n k)).

(** Modelled from the spec: the likelihood of spec 4.4,
    [P(m | N, k) = C(m-1, k-1) / C(N, k)] for [N >= m], else 0. *)
Definition likelihood (m k n : nat) : Q :=
  if (m <=? n)%nat then binomQ (m - 1) (k - 1) / binomQ n k else 0.

(** Modelled from the spec: the grid of candidate [N], the integers from
    [m] to the bound inclusive (spec 4.4, step 1). *)
Definition grid (m bound : nat) : list nat := seq m (S bound - m).

Definition sumQ (l : list Q) : Q := fold_right Qplus 0 l.

(** Modelled from the spec: normalisation of the weights (spec 4.4,
    step 3). The engine exponentiates log-likelihoods shifted by their
    maximum; in exact arithmetic the shift cancels and each posterior
    entry is the likelihood divided by the total. *)
Definition normalize (w : list Q) : list Q :=
  let total := sumQ w in map (fun x => x / total) w.

(** Modelled from the spec: the cap on the number of grid points
    ("a few thousand", spec 4.4, step 1). *)
Definition max_grid_points : nat := 5000.

(** The part of the [PosteriorDistribution] (spec 3) that the properties
    below are about: the grid and the aligned probabilities. *)
Record PosteriorDistribution := {
  n_values : list nat;
  posterior : list Q
}.

(** Modelled from the spec: the engine's [posterior] entry point (spec 4.4),
    validating first ([InvalidParameter] for [k < 1], [m < 1] or
    [m > bound]; [GridTooLarge] past the cap), then computing the
    normalised posterior over the grid. *)
Definition posterior_engine (m k bound : nat) : EngineError + PosteriorDistribution :=
  if (k <? 1)%nat || (m <? 1)%nat || (bound <? m)%nat then inl InvalidParameter
  else if (max_grid_points <? S bound - m)%nat then inl GridTooLarge
  else let ns := grid m bound in
       inr {| n_values := ns; posterior := normalize (map (likelihood m k) ns) |}.

(** One point of BayesianChart's [chartData]:
    [{ n: Math.round(n), probability: data.posterior[i] }]. The grid values
    are integers, on which [Math.round] is the identity; an index past the
    end of [posterior] reads [undefined], here [None]. *)
Record ChartPoint := {
  n : Z;
  probability : option Q
}.

Fixpoint map_index {A B} (f : nat -> A -> B) (i : nat) (l : list A) : list B :=
  match l with
  | [] => []
  | x :: l' => f i x :: map_index f (S i) l'
  end.

(** [data.n_values.map((n, i) => ({ n: Math.round(n),
      probability: data.posterior[i] }))] *)
Definition chartData (data : PosteriorDistribution) : list ChartPoint :=
  map_index (fun i v => {| n := Z.of_nat v;
                           probability := nth_error (posterior data) i |})
            0 (n_values data).

End Bayesian.

(* ------------------------------------------------------------------ *)
(** ** DistributionChart: d3-array's [bin] and the histogram counts *)

Module DistributionChart.

Open Scope Q_scope.

Definition Qltb (a b : Q) : bool := negb (Qle_bool b a).

(** [Math.round] *)
Definition round (x : Q) : Z := Qfloor (x + (1 # 2)).

Definition pow10 (p : Z) : Q := Qpower 10 p.

(** [Math.floor(Math.log10(x))] for [x > 0], by search from 0. *)
Fixpoint log10_up (fuel : nat) (x : Q) (p : Z) : Z :=
  match fuel with
  | O => p
  | S f => if Qle_bool (pow10 (p + 1)) x then log10_up f x (p + 1) else p
  end.

Fixpoint log10_down (fuel : nat) (x : Q) (p : Z) : Z :=
  match fuel with
  | O => p
  | S f => if Qltb x (pow10 p) then log10_down f x (p - 1) else p
  end.

Definition floor_log10 (x : Q) : Z :=
  if Qle_bool 1 x then log10_up 400 x 0 else log10_down 400 x (-1).

(** d3-array's [tickSpec(start, stop, count)]. The constants
    [e10 = Math.sqrt(50)], [e5 = Math.sqrt(10)], [e2 = Math.sqrt(2)] are
    compared through squares ([error] is positive). The retry
    [tickSpec(start, stop, count * 2)] only fires for [0.5 <= count < 2];
    the chart asks for 50 thresholds, so it is not modelled. *)
Definition tickSpec (start stop count : Q) : Z * Z * Q :=
  let step := (stop - start) / count in
  let power := floor_log10 step in
  let error := step / pow10 power in
  let factor : Q :=
    if Qle_bool 50 (error * error) then 10
    else if Qle_bool 10 (error * error) then 5
    else if Qle_bool 2 (error * error) then 2 else 1 in
  if (power <? 0)%Z then
    let inc := pow10 (- power) / factor in
    let i1 := round (start * inc) in
    let i2 := round (stop * inc) in
    let i1 := if Qltb (inject_Z i1 / inc) start then (i1 + 1)%Z else i1 in
    let i2 := if Qltb stop (inject_Z i2 / inc) then (i2 - 1)%Z else i2 in
    (i1, i2, - inc)
  else
    let inc := pow10 power * factor in
    let i1 := round (start / inc) in
    let i2 := round (stop / inc) in
    let i1 := if Qltb (inject_Z i1 * inc) start then (i1 + 1)%Z else i1 in
    let i2 := if Qltb stop (inject_Z i2 * inc) then (i2 - 1)%Z else i2 in
    (i1, i2, inc).

Definition zrange (lo n : Z) : list Z :=
  map (fun i => lo + Z.of_nat i)%Z (seq 0 (Z.to_nat n)).

(** d3-array's [ticks(start, stop, count)]. *)
Definition ticks (start stop count : Q) : list Q :=
  if negb (Qltb 0 count) then []
  else if Qeq_bool start stop then [start]
  else
    let reverse := Qltb stop start in
    let '(i1, i2, inc) :=
      if reverse then tickSpec stop start count else tickSpec start stop count in
    if negb (i1 <=? i2)%Z then []
    else
      let n := (i2 - i1 + 1)%Z in
      if reverse then
        if Qltb inc 0 then map (fun i => inject_Z (i2 - i) / - inc) (zrange 0 n)
        else map (fun i => inject_Z (i2 - i) * inc) (zrange 0 n)
      else
        if Qltb inc 0 then map (fun i => inject_Z (i1 + i) / - inc) (zrange 0 n)
        else map (fun i => inject_Z (i1 + i) * inc) (zrange 0 n).

Fixpoint drop_while (p : Q -> bool) (l : list Q) : list Q :=
  match l with
  | [] => []
  | t :: l' => if p t then drop_while p l' else l
  end.

Definition last_opt (l : list Q) : option Q :=
  match rev l with [] => None | t :: _ => Some t end.

(** The bin edges built by d3-array's [bin().domain([x0, x1]).thresholds(50)]
    applied to data inside the domain:
    [tz = ticks(x0, x1, 50)]; since the domain is given explicitly, a last
    threshold [>= x1] is popped; thresholds [<= x0] are dropped from the
    front and thresholds [> x1] from the back; bin [i] spans
    [x0 = i > 0 ? tz[i - 1] : x0] to [x1 = i < m ? tz[i] : x1]. *)
Definition bin_edges (x0 x1 : Q) : list (Q * Q) :=
  let tz := ticks x0 x1 50 in
  let tz := match last_opt tz with
            | Some t => if Qle_bool x1 t then removelast tz else tz
            | None => tz
            end in
  let tz := drop_while (fun t => Qle_bool t x0) tz in
  let tz := rev (drop_while (fun t => Qltb x1 t) (rev tz)) in
  combine (x0 :: tz) (tz ++ [x1]).

Definition list_min (x : Q) (l : list Q) : Q := fold_left Qmin l x.
Definition list_max (x : Q) (l : list Q) : Q := fold_left Qmax l x.

(** One entry of [histogramData]. *)
Record HistogramBin := {
  estimate : Z;
  naive_count : nat;
  mvue_count : nat
}.

(** [val => val >= bin.x0! && val < bin.x1!] *)
Definition in_bin (e : Q * Q) (v : Q) : bool :=
  Qle_bool (fst e) v && Qltb v (snd e).

Definition count_in (e : Q * Q) (vs : list Q) : nat :=
  List.length (filter (in_bin e) vs).

(** [histogramData] of DistributionChart (both copies of the component
    compute it identically). [Math.min(...allValues)] of an empty array is
    [Infinity], outside the rationals: the model covers non-empty data
    and returns [None] otherwise. *)
Definition histogramData (naive_estimates mvue_estimates : list Q)
    : option (list HistogramBin) :=
  match naive_estimates ++ mvue_estimates with
  | [] => None
  | v :: vs =>
      let x0 := list_min v vs in
      let x1 := list_max v vs in
      Some (map (fun e =>
                   {| estimate := round ((fst e + snd e) / 2);
                      naive_count := count_in e naive_estimates;
                      mvue_count := count_in e mvue_estimates |})
                (bin_edges x0 x1))
  end.

Definition sum_nat (l : list nat) : nat := fold_right Nat.add 0%nat l.

End DistributionChart.

(* ------------------------------------------------------------------ *)
(** ** The API client's base URLs *)

Module ApiUrls.

Open Scope string_scope.

Fixpoint starts_with (p s : string) : bool :=
  match p, s with
  | EmptyString, _ => true
  | String a p', String b s' => Ascii.eqb a b && starts_with p' s'
  | String _ _, EmptyString => false
  end.

(** [String.prototype.endsWith] *)
Definition ends_with (s suffix : string) : bool :=
  let n := String.length s in
  let k := String.length suffix in
  (k <=? n)%nat && String.eqb (substring (n - k) k s) suffix.

(** [s.replace(pat, '')] with a non-empty string pattern: only the first
    occurrence of [pat] is removed. *)
Fixpoint replace_first (pat s : string) : string :=
  if starts_with pat s
  then substring (String.length pat) (String.length s - String.length pat) s
  else match s with
       | EmptyString => EmptyString
       | String c s' => String c (replace_first pat s')
       end.

(** JavaScript's [a || b] on strings: the empty string is falsy. *)
Definition or_else (a b : string) : string :=
  match a with EmptyString => b | _ => a end.

(** [const BASE_URL = import.meta.env.VITE_API_URL || 'http://localhost:5000';]
    An unset variable is [None]. *)
Definition BASE_URL (VITE_API_URL : option string) : string :=
  match VITE_API_URL with
  | Some u => or_else u "http://localhost:5000"
  | None => "http://localhost:5000"
  end.

(** [const API_BASE_URL = BASE_URL.endsWith('/api') ? BASE_URL : `${BASE_URL}/api`;] *)
Definition API_BASE_URL (VITE_API_URL : option string) : string :=
  let b := BASE_URL VITE_API_URL in
  if ends_with b "/api" then b else b ++ "/api".

(** [const ROOT_BASE_URL = API_BASE_URL.replace('/api', '') || BASE_URL;] *)
Definition ROOT_BASE_URL (VITE_API_URL : option string) : string :=
  or_else (replace_first "/api" (API_BASE_URL VITE_API_URL)) (BASE_URL VITE_API_URL).

(** Whether [pat] occurs in [s]. *)
Fixpoint contains (pat s : string) : bool :=
  starts_with pat s ||
  match s with
  | EmptyString => false
  | String _ s' => contains pat s'
  end.

End ApiUrls.

(* ================================================================== *)
(** * Properties *)

Module Properties.

Import ListNotations.
Open Scope Z_scope.

(** ** Submission guard (SimulationControls) *)

(** Claim C1, as stated, fails: with N = 50 and k = 10 the Scenario
    invariant (k < N, k >= 2, N >= 3) holds, yet the simulate button stays
    disabled. *)
Lemma canSubmit_rejects_scenario_50_10 :
  ~ (SimulationControls.canSubmit false 50 10 = true <->
     (10 < 50 /\ 10 >= 2 /\ 50 >= 3)).
Proof.
  intros [_ H].
  assert (Hs : 10 < 50 /\ 10 >= 2 /\ 50 >= 3) by lia.
  specialize (H Hs). vm_compute in H. discriminate H.
Qed.

(** Claim C1 (amended): with no request in flight, submission is
    permitted exactly when k < N, k >= 2 and N >= 100; in particular
    k = N - 1 is accepted for every N >= 100. *)
Theorem canSubmit_iff_guard (N k : Z) :
  SimulationControls.canSubmit false N k = true <-> (k < N /\ 2 <= k /\ 100 <= N).
Proof.
  unfold SimulationControls.canSubmit, SimulationControls.isValid; simpl.
  rewrite Bool.negb_involutive, !andb_true_iff, Z.ltb_lt, !Z.geb_le.
  lia.
Qed.

(** ** The accuracy-sweep request (App.handleSimulate) *)

Lemma step_ge_10 (k : Z) : 10 <= App.step k.
Proof.
  unfold App.step, App.maxSample, App.minSample, App.numPoints.
  apply Z.div_le_lower_bound; lia.
Qed.

Lemma sampleSizes_eq (k : Z) :
  App.sampleSizes k =
  [5; 5 + 1 * App.step k; 5 + 2 * App.step k; 5 + 3 * App.step k;
   5 + 4 * App.step k; 5 + 5 * App.step k; 5 + 6 * App.step k;
   5 + 7 * App.step k; 5 + 8 * App.step k; 5 + 9 * App.step k].
Proof.
  unfold App.sampleSizes, App.minSample, App.numPoints; simpl.
  reflexivity.
Qed.

Lemma sampleSizes_sorted (k : Z) : Sorted Z.lt (App.sampleSizes k).
Proof.
  rewrite sampleSizes_eq. pose proof (step_ge_10 k).
  repeat (constructor; try lia).
Qed.

Lemma accuracy_sample_sizes (rmse : Z -> Z -> Q * Q) (N : Z) (ks : list Z) :
  match AccuracySweep.accuracy rmse N ks with
  | Some res => map AccuracySweep.sample_size res = ks
  | None => True
  end.
Proof.
  unfold AccuracySweep.accuracy.
  destruct (forallb _ ks); [|exact I].
  rewrite map_map; simpl. apply map_id.
Qed.

(** Claim C2 fails on an input the controls accept: N = 100, k = 99 passes
    [isValid], and the sweep then asks for sample sizes 110 to 194, all at
    least N. *)
Lemma sweep_requests_sizes_beyond_population :
  SimulationControls.isValid 100 99 = true /\
  App.sampleSizes 99 = [5; 26; 47; 68; 89; 110; 131; 152; 173; 194] /\
  Exists (fun s => 100 <= s) (App.sampleSizes 99).
Proof.
  assert (E : App.sampleSizes 99 = [5; 26; 47; 68; 89; 110; 131; 152; 173; 194])
    by reflexivity.
  split; [reflexivity|]. split; [exact E|].
  rewrite E. apply Exists_exists. exists 110. split; [simpl; tauto | lia].
Qed.

(** Claim C7: for every input, the requested sample sizes start at 5, are
    ten, and strictly ascend; an accuracy result for them lists its points
    in that same ascending order of [sample_size]. *)
Theorem accuracy_sample_sizes_ascending
    (rmse : Z -> Z -> Q * Q) (truePopulation sampleSize : Z) :
  hd_error (App.sampleSizes sampleSize) = Some 5 /\
  List.length (App.sampleSizes sampleSize) = 10%nat /\
  Sorted Z.lt (App.sampleSizes sampleSize) /\
  match AccuracySweep.accuracy rmse truePopulation (App.sampleSizes sampleSize) with
  | Some res => Sorted Z.lt (map AccuracySweep.sample_size res)
  | None => True
  end.
Proof.
  split; [reflexivity|]. split; [reflexivity|].
  split; [apply sampleSizes_sorted|].
  pose proof (accuracy_sample_sizes rmse truePopulation (App.sampleSizes sampleSize)) as H.
  destruct (AccuracySweep.accuracy _ _ _); [|exact I].
  rewrite H. apply sampleSizes_sorted.
Qed.

(** ** Point estimators *)

(** Claim C3: the MVUE estimate refuses exactly [k = 0] with
    [InvalidParameter], and for [k >= 1] it is [m (1 + 1/k) - 1]; the naive
    estimate is [m]. *)
Theorem mvue_estimate_spec (m : Q) (k : Z) :
  (Estimator.mvue_estimate m k = inl Estimator.InvalidParameter <-> k = 0) /\
  (1 <= k -> Estimator.mvue_estimate m k = inr (m * (1 + 1 / inject_Z k) - 1)%Q) /\
  Estimator.naive_estimate m = m.
Proof.
  unfold Estimator.mvue_estimate, Estimator.naive_estimate.
  split; [|split; [|reflexivity]].
  - destruct (Z.eqb_spec k 0); split; intros H; congruence.
  - intros Hk. destruct (Z.eqb_spec k 0); [lia | reflexivity].
Qed.

(** ** Data contracts (types/simulation.ts) *)

Import Types.
Open Scope string_scope.

(** Claim C4: the simulate and accuracy responses carry exactly the fields
    of the external contract, with those names. *)
Theorem response_contract_fields :
  field_names SimulationResponse =
    ["true_population"; "sample_size"; "naive_estimates"; "mvue_estimates";
     "naive_rmse"; "mvue_rmse"; "naive_bias"; "mvue_bias"; "metadata"] /\
  option_map field_names (field SimulationResponse "metadata") =
    Some ["iterations"; "computation_time_ms"] /\
  field_names AccuracyResponse = ["true_population"; "results"] /\
  field AccuracyResponse "results" = Some (TArray (TRef "AccuracyDataPoint")) /\
  option_map field_names (resolve_export "AccuracyDataPoint") =
    Some ["sample_size"; "naive_rmse"; "mvue_rmse"].
Proof. repeat split. Qed.

(** Claim C5 fails: the type module exports neither [BayesianRequest] nor
    [BayesianResponse], so the API client's import list and BayesianChart's
    import do not resolve. *)
Lemma bayesian_types_missing :
  resolve_export "BayesianRequest" = None /\
  resolve_export "BayesianResponse" = None /\
  resolve_imports api_imports = None /\
  resolve_imports bayesian_chart_imports = None.
Proof. repeat split. Qed.

(** Claim C6, as stated, fails: the metadata record's second field is
    [computation_time_ms], not [computation_time]. *)
Lemma metadata_fields_not_computation_time :
  option_map field_names (field SimulationResponse "metadata") <>
    Some ["iterations"; "computation_time"].
Proof. vm_compute. intros H. discriminate H. Qed.

(** Claim C6 (amended): the metadata record's fields are exactly
    [iterations] and [computation_time_ms]. *)
Theorem metadata_fields :
  option_map field_names (field SimulationResponse "metadata") =
    Some ["iterations"; "computation_time_ms"].
Proof. reflexivity. Qed.

Close Scope string_scope.

(** ** The posterior and its plot *)

Section Posterior.

Import Bayesian.
Local Open Scope Q_scope.

Lemma binom_pos (n k : nat) : (k <= n)%nat -> (0 < binom n k)%nat.
Proof.
  revert k. induction n as [|n IH]; intros [|k] Hk; simpl; try lia.
  specialize (IH k ltac:(lia)). lia.
Qed.

Lemma nat_Q_pos (x : nat) : (0 < x)%nat -> 0 < inject_Z (Z.of_nat x).
Proof. intros H. unfold Qlt; simpl. lia. Qed.

Lemma nat_Q_nonneg (x : nat) : 0 <= inject_Z (Z.of_nat x).
Proof. unfold Qle; simpl. lia. Qed.

Lemma div_nonneg (a b : Q) : 0 <= a -> 0 <= b -> 0 <= a / b.
Proof.
  intros Ha Hb. unfold Qdiv. apply Qmult_le_0_compat; [exact Ha|].
  apply Qinv_le_0_compat. exact Hb.
Qed.

Lemma likelihood_nonneg (m k n : nat) : 0 <= likelihood m k n.
Proof.
  unfold likelihood. destruct (m <=? n)%nat; [|apply Qle_refl].
  apply div_nonneg; apply nat_Q_nonneg.
Qed.

Lemma likelihood_at_max_pos (m k : nat) :
  (1 <= k)%nat -> (k <= m)%nat -> 0 < likelihood m k m.
Proof.
  intros Hk Hkm. unfold likelihood. rewrite Nat.leb_refl.
  apply Qlt_shift_div_l.
  - apply nat_Q_pos, binom_pos. exact Hkm.
  - rewrite Qmult_0_l. apply nat_Q_pos, binom_pos. lia.
Qed.

Lemma sumQ_nonneg (l : list Q) : Forall (Qle 0) l -> 0 <= sumQ l.
Proof.
  induction 1 as [|x l Hx _ IH]; simpl; [apply Qle_refl|].
  apply (Qplus_le_compat 0 x 0 (sumQ l)) in Hx; [|exact IH]. exact Hx.
Qed.

Lemma sumQ_div (l : list Q) (t : Q) :
  sumQ (map (fun x => x / t) l) == sumQ l / t.
Proof.
  induction l as [|x l IH]; simpl.
  - reflexivity.
  - rewrite IH. unfold Qdiv. rewrite Qmult_plus_distr_l. reflexivity.
Qed.

Lemma normalize_sum (w : list Q) : ~ sumQ w == 0 -> sumQ (normalize w) == 1.
Proof.
  intros H. unfold normalize. rewrite sumQ_div. unfold Qdiv.
  apply Qmult_inv_r. exact H.
Qed.

Lemma normalize_nonneg (w : list Q) :
  Forall (Qle 0) w -> Forall (Qle 0) (normalize w).
Proof.
  intros H. pose proof (sumQ_nonneg w H) as Ht. unfold normalize.
  apply Forall_map. eapply Forall_impl; [|exact H].
  intros x Hx. apply div_nonneg; assumption.
Qed.

Lemma length_map_index {A B} (f : nat -> A -> B) (i : nat) (l : list A) :
  List.length (map_index f i l) = List.length l.
Proof.
  revert i. induction l as [|x l IH]; intros i; simpl; [reflexivity|].
  rewrite IH. reflexivity.
Qed.

(** Reading [posterior[i]] along [n_values] returns the aligned entry. *)
Lemma chart_probabilities (ns : list nat) (pre post : list Q) :
  List.length ns = List.length post ->
  map probability
      (map_index (fun i v => {| n := Z.of_nat v;
                                probability := nth_error (pre ++ post) i |})
                 (List.length pre) ns)
  = map Some post.
Proof.
  revert pre post. induction ns as [|v ns IH]; intros pre [|x post] Hlen;
    simpl in *; try discriminate; [reflexivity|].
  rewrite nth_error_app2, Nat.sub_diag by lia. simpl. f_equal.
  replace (S (List.length pre)) with (List.length (pre ++ [x]))
    by (rewrite length_app; simpl; lia).
  replace (pre ++ x :: post) with ((pre ++ [x]) ++ post)
    by (rewrite <- app_assoc; reflexivity).
  apply IH. lia.
Qed.

Lemma chartData_probabilities (d : PosteriorDistribution) :
  List.length (n_values d) = List.length (posterior d) ->
  map probability (chartData d) = map Some (posterior d).
Proof.
  intros H. unfold chartData.
  apply (chart_probabilities (n_values d) [] (posterior d) H).
Qed.

(** Claim C8: whenever the engine returns a posterior for an observed
    maximum [m] of a sample of size [k] (so [k <= m]), its probabilities are
    non-negative, one per grid point, and sum to 1 (so within [1e-9] of 1);
    the chart plots exactly these probabilities, one point per grid value. *)
Theorem posterior_normalized_and_plotted (m k bound : nat) (r : PosteriorDistribution) :
  (k <= m)%nat ->
  posterior_engine m k bound = inr r ->
  Forall (Qle 0) (posterior r) /\
  sumQ (posterior r) == 1 /\
  Qabs (sumQ (posterior r) - 1) <= 1 # 1000000000 /\
  List.length (posterior r) = List.length (n_values r) /\
  List.length (chartData r) = List.length (n_values r) /\
  map probability (chartData r) = map Some (posterior r).
Proof.
  intros Hkm Heq. unfold posterior_engine in Heq.
  destruct ((k <? 1) || (m <? 1) || (bound <? m))%nat eqn:E1; [discriminate|].
  destruct (max_grid_points <? S bound - m)%nat; [discriminate|].
  injection Heq as <-. cbn [posterior n_values].
  rewrite !orb_false_iff, !Nat.ltb_ge in E1. destruct E1 as [[Hk Hm] Hb].
  set (w := map (likelihood m k) (grid m bound)).
  assert (Hw : Forall (Qle 0) w).
  { apply Forall_map, Forall_forall. intros x _. apply likelihood_nonneg. }
  assert (Hpos : 0 < sumQ w).
  { unfold w, grid. replace (S bound - m)%nat with (S (bound - m)) by lia.
    cbn [seq map sumQ fold_right].
    pose proof (likelihood_at_max_pos m k Hk Hkm) as H1.
    assert (H2 : 0 <= fold_right Qplus 0 (map (likelihood m k) (seq (S m) (bound - m)))).
    { apply sumQ_nonneg, Forall_map, Forall_forall. intros x _.
      apply likelihood_nonneg. }
    lra. }
  assert (Hsum : sumQ (normalize w) == 1).
  { apply normalize_sum. intros H. rewrite H in Hpos. discriminate Hpos. }
  assert (Hlen : List.length (normalize w) = List.length (grid m bound)).
  { unfold normalize, w. rewrite !length_map. reflexivity. }
  split; [apply normalize_nonneg, Hw|].
  split; [exact Hsum|].
  split; [apply Qabs_Qle_condition; split; lra|].
  split; [exact Hlen|].
  split; [unfold chartData; apply length_map_index|].
  apply chartData_probabilities. cbn [posterior n_values]. symmetry. exact Hlen.
Qed.

(** Witness for C8: a sample of size 3 whose maximum is 5, on the grid
    5..10. *)
Lemma posterior_normalized_and_plotted_witness :
  exists r, (3 <= 5)%nat /\ posterior_engine 5 3 10 = inr r /\
            sumQ (posterior r) == 1 /\
            map probability (chartData r) = map Some (posterior r).
Proof.
  eexists. split; [lia|]. split; [reflexivity|].
  destruct (posterior_normalized_and_plotted 5 3 10 _ (le_S _ _ (le_S _ _ (le_n 3))) eq_refl)
    as (_ & Hsum & _ & _ & _ & Hplot).
  split; [exact Hsum | exact Hplot].
Defined.

End Posterior.

(** ** Histogram counts (DistributionChart) *)

(** Claim C9 fails on a two-trial result for k = 2 (observed maxima 50 and
    80, MVUE estimates 74 and 119): d3 closes the last bin at the overall
    maximum 119, but the recount [val < bin.x1] drops it, so the MVUE
    counts add up to 1 instead of 2. *)
Lemma histogram_drops_overall_maximum :
  match DistributionChart.histogramData [50; 80]%Q [74; 119]%Q with
  | Some bins =>
      DistributionChart.sum_nat (map DistributionChart.naive_count bins) = 2%nat /\
      DistributionChart.sum_nat (map DistributionChart.mvue_count bins) = 1%nat
  | None => False
  end.
Proof. vm_compute. split; reflexivity. Qed.

(** ** Base URLs of the API client *)

Import ApiUrls.
Open Scope string_scope.

Lemma substring_app_length (b s : string) (n : nat) :
  substring (String.length b) n (b ++ s) = substring 0 n s.
Proof. induction b as [|c b IH]; simpl; [reflexivity | exact IH]. Qed.

Lemma length_string_app (b s : string) :
  String.length (b ++ s) = (String.length b + String.length s)%nat.
Proof. induction b as [|c b IH]; simpl; [reflexivity | rewrite IH; reflexivity]. Qed.

(** The derived API base URL always ends with [/api]. *)
Lemma API_BASE_URL_ends_with_api (v : option string) :
  ends_with (API_BASE_URL v) "/api" = true.
Proof.
  unfold API_BASE_URL.
  destruct (ends_with (BASE_URL v) "/api") eqn:E; [exact E|].
  unfold ends_with. rewrite length_string_app. simpl String.length.
  rewrite Nat.add_sub. rewrite substring_app_length.
  apply andb_true_iff. split; [apply Nat.leb_le; lia | reflexivity].
Qed.

(** Claim C10 fails for a back end served from [https://api.example.com]:
    [replace('/api', '')] removes the first [/api], found in [//api.], not
    the appended segment, so the root URL is [https:/.example.com/api] and
    appending [/api] to it does not give back the API base URL. *)
Lemma root_url_strips_first_api_occurrence :
  API_BASE_URL (Some "https://api.example.com") = "https://api.example.com/api" /\
  ROOT_BASE_URL (Some "https://api.example.com") = "https:/.example.com/api" /\
  ROOT_BASE_URL (Some "https://api.example.com") ++ "/api" <>
    API_BASE_URL (Some "https://api.example.com").
Proof.
  split; [reflexivity|]. split; [reflexivity|].
  vm_compute. intros H. discriminate H.
Qed.

Close Scope string_scope.

End Properties.

(* ================================================================== *)
(** * Further properties of the client code *)

Module Extras.

Import ListNotations.
Open Scope Z_scope.

(** ** Sliders and the submission guard (SimulationControls) *)

Lemma in_slider_values (lo hi st v : Z) :
  0 < st -> lo <= hi ->
  In v (SimulationControls.slider_values lo hi st) <->
  exists j, 0 <= j <= (hi - lo) / st /\ v = lo + st * j.
Proof.
  intros Hst Hle. unfold SimulationControls.slider_values.
  assert (Hq : 0 <= (hi - lo) / st) by (apply Z.div_pos; lia).
  rewrite in_map_iff. split.
  - intros [x [<- Hin]]. apply in_seq in Hin.
    exists (Z.of_nat x). split; [lia | reflexivity].
  - intros [j [Hj ->]]. exists (Z.to_nat j). split.
    + rewrite Z2Nat.id by lia. reflexivity.
    + apply in_seq. lia.
Qed.

Lemma in_populationSlider (N : Z) :
  In N SimulationControls.populationSlider <->
  exists j, 0 <= j <= 99 /\ N = 100 + 100 * j.
Proof.
  unfold SimulationControls.populationSlider.
  rewrite in_slider_values by lia. reflexivity.
Qed.

Lemma in_sampleSizeSlider (k : Z) :
  In k SimulationControls.sampleSizeSlider <-> 2 <= k <= 100.
Proof.
  unfold SimulationControls.sampleSizeSlider.
  rewrite in_slider_values by lia. change ((100 - 2) / 1) with 98. split.
  - intros [j [Hj ->]]. lia.
  - intros H. exists (k - 2). lia.
Qed.

Lemma isValid_iff (N k : Z) :
  SimulationControls.isValid N k = true <-> k < N /\ 2 <= k /\ 100 <= N.
Proof.
  unfold SimulationControls.isValid.
  rewrite !andb_true_iff, Z.ltb_lt, !Z.geb_le. lia.
Qed.

(** Nothing is submitted while a request is in flight; otherwise, among
    the pairs the two sliders can produce, every one is submitted except
    N = 100 with k = 100. *)
Theorem slider_pairs_submit (N k : Z) :
  In N SimulationControls.populationSlider ->
  In k SimulationControls.sampleSizeSlider ->
  SimulationControls.canSubmit true N k = false /\
  (SimulationControls.canSubmit false N k = false <-> N = 100 /\ k = 100).
Proof.
  rewrite in_populationSlider, in_sampleSizeSlider.
  intros [j [Hj ->]] Hk. split; [reflexivity|].
  unfold SimulationControls.canSubmit. rewrite Bool.orb_false_l, Bool.negb_involutive.
  destruct (SimulationControls.isValid (100 + 100 * j) k) eqn:E.
  - apply isValid_iff in E. split; [intros H; discriminate H | lia].
  - split; [intros _ | intros _; reflexivity].
    assert (~ (k < 100 + 100 * j /\ 2 <= k /\ 100 <= 100 + 100 * j)) as Hn.
    { rewrite <- isValid_iff, E. discriminate. }
    lia.
Qed.

(** Witness: the sliders' initial values, N = 1000 and k = 20. *)
Lemma slider_pairs_submit_witness :
  In 1000 SimulationControls.populationSlider /\
  In 20 SimulationControls.sampleSizeSlider /\
  SimulationControls.canSubmit false 1000 20 = true.
Proof.
  assert (H1 : In 1000 SimulationControls.populationSlider)
    by (vm_compute; repeat first [left; reflexivity | right]).
  assert (H2 : In 20 SimulationControls.sampleSizeSlider)
    by (vm_compute; repeat first [left; reflexivity | right]).
  split; [exact H1|]. split; [exact H2|].
  destruct (SimulationControls.canSubmit false 1000 20) eqn:E; [reflexivity|].
  apply (proj2 (slider_pairs_submit 1000 20 H1 H2)) in E.
  destruct E as [E _]. discriminate E.
Defined.

(** ** The sample sizes of the accuracy request (App.handleSimulate) *)

Lemma step_bounds (k : Z) :
  9 * App.step k <= App.maxSample k - 5 < 9 * App.step k + 9.
Proof.
  unfold App.step, App.minSample, App.numPoints.
  change (10 - 1) with 9.
  pose proof (Z.div_mod (App.maxSample k - 5) 9 ltac:(lia)).
  pose proof (Z.mod_pos_bound (App.maxSample k - 5) 9 ltac:(lia)).
  lia.
Qed.

Lemma maxSample_eq (k : Z) : App.maxSample k = Z.max (k * 2) 100.
Proof. reflexivity. Qed.

(** Every requested sample size lies between 5 and [max(2k, 100)], and the
    last one is within one step-rounding (less than 9) of that maximum, as
    the comment "a range from 5 to max(sample_size * 2, 100)" says. *)
Theorem sampleSizes_range (k : Z) :
  Forall (fun s => 5 <= s <= App.maxSample k) (App.sampleSizes k) /\
  App.maxSample k - 9 < nth 9 (App.sampleSizes k) 0.
Proof.
  pose proof (step_bounds k). pose proof (Properties.step_ge_10 k).
  assert (100 <= App.maxSample k) by (rewrite maxSample_eq; lia).
  rewrite Properties.sampleSizes_eq. cbv [nth].
  split; [|lia].
  apply Forall_forall. intros x Hx. cbv [In] in Hx.
  repeat destruct Hx as [<- | Hx]; try lia; contradiction.
Qed.

(** For every sample size up to 51 the accuracy request is the same ten
    sizes, 5, 15, ..., 95. *)
Theorem sampleSizes_small_k (k : Z) :
  k <= 51 -> App.sampleSizes k = [5; 15; 25; 35; 45; 55; 65; 75; 85; 95].
Proof.
  intros Hk. pose proof (step_bounds k). rewrite maxSample_eq in H.
  assert (Hs : App.step k = 10) by lia.
  rewrite Properties.sampleSizes_eq, Hs. reflexivity.
Qed.

Lemma sampleSizes_small_k_witness :
  20 <= 51 /\ App.sampleSizes 20 = [5; 15; 25; 35; 45; 55; 65; 75; 85; 95].
Proof. split; [lia | apply (sampleSizes_small_k 20); lia]. Defined.

(** For the pairs the sliders produce and the guard accepts, the accuracy
    request stays below N exactly when N >= 200 or k <= 51: only N = 100
    with k from 52 to 99 asks for sample sizes of at least N. *)
Theorem sampleSizes_below_population (N k : Z) :
  In N SimulationControls.populationSlider ->
  In k SimulationControls.sampleSizeSlider ->
  SimulationControls.isValid N k = true ->
  (Forall (fun s => s < N) (App.sampleSizes k) <-> 200 <= N \/ k <= 51).
Proof.
  rewrite in_populationSlider, in_sampleSizeSlider, isValid_iff.
  intros [j [Hj ->]] Hk Hv.
  pose proof (step_bounds k) as Hb. rewrite maxSample_eq in Hb.
  pose proof (Properties.step_ge_10 k) as Hs.
  rewrite Properties.sampleSizes_eq. split.
  - intros Hf. rewrite Forall_forall in Hf.
    specialize (Hf (5 + 9 * App.step k) ltac:(cbv [In]; tauto)). lia.
  - intros Hc. apply Forall_forall. intros x Hx. cbv [In] in Hx.
    repeat destruct Hx as [<- | Hx]; try lia; contradiction.
Qed.

Lemma sampleSizes_below_population_witness :
  In 1000 SimulationControls.populationSlider /\
  In 20 SimulationControls.sampleSizeSlider /\
  SimulationControls.isValid 1000 20 = true /\
  Forall (fun s => s < 1000) (App.sampleSizes 20).
Proof.
  assert (H1 : In 1000 SimulationControls.populationSlider)
    by (vm_compute; repeat first [left; reflexivity | right]).
  assert (H2 : In 20 SimulationControls.sampleSizeSlider)
    by (vm_compute; repeat first [left; reflexivity | right]).
  assert (H3 : SimulationControls.isValid 1000 20 = true) by reflexivity.
  split; [exact H1|]. split; [exact H2|]. split; [exact H3|].
  apply (sampleSizes_below_population 1000 20 H1 H2 H3). left. lia.
Defined.

(** ** Field accesses against the declared interfaces *)

Section FieldReads.

Import Types.
Local Open Scope string_scope.

(** Every property the metrics panel, DistributionChart and AccuracyChart
    read is declared, with the type its use needs (numbers, arrays of
    numbers, the array of results), and the request literals built by
    [handleSimulate] have exactly the request interfaces' keys. *)
Theorem component_reads_resolve :
  map (resolve_path SimulationResponse) app_reads =
    [Some TNumber; Some TNumber; Some TNumber; Some TNumber; Some TNumber;
     Some TNumber] /\
  map (resolve_path SimulationResponse) distribution_chart_reads =
    [Some (TArray TNumber); Some (TArray TNumber); Some TNumber;
     Some TNumber; Some TNumber] /\
  map (resolve_path AccuracyResponse) accuracy_chart_reads =
    [Some (TArray (TRef "AccuracyDataPoint")); Some TNumber; Some TNumber;
     Some TNumber] /\
  field_names SimulationRequest = simulation_request_keys /\
  field_names AccuracyRequest = accuracy_request_keys.
Proof. repeat split. Qed.

End FieldReads.

(** ** Base URLs when the configured URL has no [/api] in it *)

Section Urls.

Import ApiUrls.
Local Open Scope string_scope.

Lemma starts_with_app (p s t : string) :
  (String.length p <= String.length s)%nat ->
  starts_with p (s ++ t) = starts_with p s.
Proof.
  revert s. induction p as [|a p IH]; intros s Hl; [reflexivity|].
  destruct s as [|b s]; simpl in *; [lia|].
  rewrite IH by lia. reflexivity.
Qed.

Lemma starts_with_substring0 (k : nat) (s : string) :
  starts_with (substring 0 k s) s = true.
Proof.
  revert s. induction k as [|k IH]; intros [|c s]; simpl; try reflexivity.
  rewrite Ascii.eqb_refl. apply IH.
Qed.

Lemma contains_of_substring (p s : string) (i : nat) :
  substring i (String.length p) s = p -> contains p s = true.
Proof.
  revert s. induction i as [|i IH]; intros s H.
  - destruct s as [|c s]; simpl.
    + destruct p; [reflexivity | simpl in H; discriminate H].
    + rewrite <- H at 1. rewrite starts_with_substring0. reflexivity.
  - destruct s as [|c s].
    + destruct p; [destruct i; reflexivity | simpl in H; discriminate H].
    + simpl in H. simpl. rewrite (IH s H). apply orb_true_r.
Qed.

Lemma contains_of_ends_with (s suffix : string) :
  ends_with s suffix = true -> contains suffix s = true.
Proof.
  unfold ends_with. intros H. apply andb_true_iff in H as [_ H].
  apply String.eqb_eq in H. exact (contains_of_substring _ _ _ H).
Qed.

Lemma replace_first_appended (b : string) :
  contains "/api" b = false -> replace_first "/api" (b ++ "/api") = b.
Proof.
  induction b as [|c b IH]; intros H; [reflexivity|].
  change (contains "/api" (String c b))
    with (starts_with "/api" (String c b) || contains "/api" b) in H.
  apply orb_false_iff in H as [Hs Hc].
  change (String c b ++ "/api") with (String c (b ++ "/api")).
  cbn [replace_first].
  assert (Hs' : starts_with "/api" (String c (b ++ "/api")) = false).
  { destruct b as [|c1 [|c2 [|c3 b]]].
    - cbn [starts_with append].
      replace (Ascii.eqb "a" "/") with false by reflexivity.
      cbn [andb]. apply andb_false_r.
    - cbn [starts_with append].
      replace (Ascii.eqb "p" "/") with false by reflexivity.
      cbn [andb]. rewrite !andb_false_r. reflexivity.
    - cbn [starts_with append].
      replace (Ascii.eqb "i" "/") with false by reflexivity.
      cbn [andb]. rewrite !andb_false_r. reflexivity.
    - (* the first four characters decide the match *)
      change (String c (String c1 (String c2 (String c3 b)) ++ "/api"))
        with (String c (String c1 (String c2 (String c3 b))) ++ "/api").
      rewrite starts_with_app by (simpl; lia). exact Hs. }
  rewrite Hs'. rewrite IH by exact Hc. reflexivity.
Qed.

(** When the configured base URL contains no [/api], the client appends
    [/api] for the API base URL, the root URL is the configured one, and
    appending [/api] to the root gives back the API base URL. *)
Theorem base_urls_roundtrip (v : option string) :
  contains "/api" (BASE_URL v) = false ->
  ROOT_BASE_URL v = BASE_URL v /\ ROOT_BASE_URL v ++ "/api" = API_BASE_URL v.
Proof.
  intros H.
  assert (He : ends_with (BASE_URL v) "/api" = false).
  { destruct (ends_with (BASE_URL v) "/api") eqn:E; [|reflexivity].
    apply contains_of_ends_with in E. congruence. }
  assert (Hr : ROOT_BASE_URL v = BASE_URL v).
  { unfold ROOT_BASE_URL, API_BASE_URL. rewrite He, replace_first_appended by exact H.
    unfold or_else. destruct (BASE_URL v); reflexivity. }
  split; [exact Hr|]. rewrite Hr. unfold API_BASE_URL. rewrite He. reflexivity.
Qed.

(** Witness: the deployment's back-end URL from DEPLOYMENT.md. *)
Lemma base_urls_roundtrip_witness :
  contains "/api" (BASE_URL (Some "https://german-tanks-backend.onrender.com")) = false /\
  ROOT_BASE_URL (Some "https://german-tanks-backend.onrender.com") =
    "https://german-tanks-backend.onrender.com".
Proof.
  assert (H : contains "/api" (BASE_URL (Some "https://german-tanks-backend.onrender.com"))
              = false) by reflexivity.
  split; [exact H|]. apply (base_urls_roundtrip _ H).
Defined.

End Urls.

(** ** What the histogram counts (DistributionChart) *)

Section Histogram.

Import DistributionChart.
Local Open Scope Q_scope.

Lemma SSorted_app_inv (a b : list Q) :
  StronglySorted Qle (a ++ b) -> StronglySorted Qle a /\ StronglySorted Qle b.
Proof.
  induction a as [|x a IH]; simpl; intros H; [split; [constructor | exact H]|].
  inversion H as [|? ? Hs Hf]; subst.
  destruct (IH Hs) as [Ha Hb]. split; [|exact Hb].
  constructor; [exact Ha|].
  apply Forall_app in Hf. exact (proj1 Hf).
Qed.

Lemma SSorted_snoc_bound (a : list Q) (h : Q) :
  StronglySorted Qle (a ++ [h]) -> Forall (fun x => x <= h) a.
Proof.
  induction a as [|x a IH]; simpl; intros H; [constructor|].
  inversion H as [|? ? Hs Hf]; subst.
  constructor; [|exact (IH Hs)].
  apply Forall_app in Hf. destruct Hf as [_ Hf]. inversion Hf; assumption.
Qed.

Lemma drop_while_suffix (p : Q -> bool) (l : list Q) :
  exists d, l = d ++ drop_while p l.
Proof.
  induction l as [|x l [d Hd]]; simpl; [exists []; reflexivity|].
  destruct (p x); [exists (x :: d); simpl; f_equal; exact Hd | exists []; reflexivity].
Qed.

Lemma drop_while_head (p : Q -> bool) (l : list Q) :
  match drop_while p l with [] => True | t :: _ => p t = false end.
Proof.
  induction l as [|x l IH]; simpl; [exact I|].
  destruct (p x) eqn:E; [exact IH | exact E].
Qed.

Lemma fold_Qmin_bound (l : list Q) (x : Q) :
  fold_left Qmin l x <= x /\ Forall (fun y => fold_left Qmin l x <= y) l.
Proof.
  revert x. induction l as [|y l IH]; intros x; simpl; [split; [apply Qle_refl | constructor]|].
  destruct (IH (Qmin x y)) as [H1 H2].
  pose proof (Q.le_min_l x y). pose proof (Q.le_min_r x y).
  split; [eapply Qle_trans; eassumption|].
  constructor; [eapply Qle_trans; eassumption | exact H2].
Qed.

Lemma fold_Qmax_bound (l : list Q) (x : Q) :
  x <= fold_left Qmax l x /\ Forall (fun y => y <= fold_left Qmax l x) l.
Proof.
  revert x. induction l as [|y l IH]; intros x; simpl; [split; [apply Qle_refl | constructor]|].
  destruct (IH (Qmax x y)) as [H1 H2].
  pose proof (Q.le_max_l x y). pose proof (Q.le_max_r x y).
  split; [eapply Qle_trans; eassumption|].
  constructor; [eapply Qle_trans; eassumption | exact H2].
Qed.





Lemma Qle_bool_false (a b : Q) : Qle_bool a b = false -> b < a.
Proof.
  intros H. apply Qnot_le_lt. intros Hle. apply Qle_bool_iff in Hle. congruence.
Qed.

Lemma Qltb_iff (a b : Q) : Qltb a b = true <-> a < b.
Proof.
  unfold Qltb. rewrite negb_true_iff. split.
  - apply Qle_bool_false.
  - intros H. destruct (Qle_bool b a) eqn:E; [|reflexivity].
    apply Qle_bool_iff in E. exfalso. exact (Qlt_not_le _ _ H E).
Qed.


End Histogram.

(** ** What the histogram counts, continued *)

Section HistogramCounts.

Import DistributionChart.
Local Open Scope Q_scope.

Lemma SSorted_snoc (a : list Q) (h : Q) :
  StronglySorted Qle a -> Forall (fun x => x <= h) a -> StronglySorted Qle (a ++ [h]).
Proof.
  induction a as [|x a IH]; simpl; intros Hs Hf.
  - repeat constructor.
  - inversion Hs; subst. inversion Hf; subst.
    constructor; [apply IH; assumption|].
    apply Forall_app; split; [assumption | constructor; [assumption | constructor]].
Qed.

Lemma SSorted_map_seq (g : nat -> Q) (a m : nat) :
  (forall i j, (i <= j)%nat -> g i <= g j) ->
  StronglySorted Qle (map g (seq a m)).
Proof.
  intros Hg. revert a. induction m as [|m IH]; intros a; simpl; [constructor|].
  constructor; [apply IH|].
  apply Forall_forall. intros y Hy. apply in_map_iff in Hy.
  destruct Hy as [i [<- Hi]]. apply in_seq in Hi. apply Hg. lia.
Qed.

Lemma SSorted_map_zrange (f : Z -> Q) (n : Z) :
  (forall i j, (i <= j)%Z -> f i <= f j) ->
  StronglySorted Qle (map f (zrange 0 n)).
Proof.
  intros Hf. unfold zrange. rewrite map_map.
  apply SSorted_map_seq. intros i j Hij. apply Hf. lia.
Qed.

(** On an increasing domain, [ticks] comes out in ascending order. *)
Lemma ticks_sorted (x0 x1 count : Q) :
  x0 <= x1 -> StronglySorted Qle (ticks x0 x1 count).
Proof.
  intros Hle. unfold ticks.
  destruct (negb (Qltb 0 count)); [constructor|].
  destruct (Qeq_bool x0 x1); [repeat constructor|].
  assert (Hr : Qltb x1 x0 = false).
  { unfold Qltb. apply negb_false_iff, Qle_bool_iff. exact Hle. }
  rewrite Hr. destruct (tickSpec x0 x1 count) as [[i1 i2] inc].
  destruct (negb (i1 <=? i2)%Z); [constructor|].
  destruct (Qltb inc 0) eqn:Hinc.
  - apply Qltb_iff in Hinc.
    apply SSorted_map_zrange. intros i j Hij.
    unfold Qdiv. apply Qmult_le_compat_r.
    + rewrite <- Zle_Qle. lia.
    + apply Qlt_le_weak, Qinv_lt_0_compat. lra.
  - apply negb_false_iff, Qle_bool_iff in Hinc.
    apply SSorted_map_zrange. intros i j Hij.
    apply Qmult_le_compat_r; [rewrite <- Zle_Qle; lia | exact Hinc].
Qed.

Lemma SSorted_removelast (l : list Q) :
  StronglySorted Qle l -> StronglySorted Qle (removelast l).
Proof.
  intros Hs. destruct l as [|x l]; [constructor|].
  rewrite (app_removelast_last 0 (l := x :: l)) in Hs by discriminate.
  exact (proj1 (SSorted_app_inv _ _ Hs)).
Qed.

(** The thresholds kept by [bin_edges], framed by the domain, form an
    ascending chain. *)
Lemma bin_edges_chain (x0 x1 : Q) :
  x0 <= x1 ->
  exists tz, bin_edges x0 x1 = combine (x0 :: tz) (tz ++ [x1]) /\
             StronglySorted Qle (x0 :: tz ++ [x1]).
Proof.
  intros Hle. unfold bin_edges.
  set (T0 := match last_opt (ticks x0 x1 50) with
             | Some t => if Qle_bool x1 t then removelast (ticks x0 x1 50)
                         else ticks x0 x1 50
             | None => ticks x0 x1 50 end).
  assert (H0 : StronglySorted Qle T0).
  { pose proof (ticks_sorted x0 x1 50 Hle). unfold T0.
    destruct (last_opt _); [destruct (Qle_bool _ _)|]; auto using SSorted_removelast. }
  set (T1 := drop_while (fun t => Qle_bool t x0) T0).
  assert (H1 : StronglySorted Qle T1).
  { destruct (drop_while_suffix (fun t => Qle_bool t x0) T0) as [d Hd].
    rewrite Hd in H0. exact (proj2 (SSorted_app_inv _ _ H0)). }
  assert (H1b : Forall (fun t => x0 <= t) T1).
  { pose proof (drop_while_head (fun t => Qle_bool t x0) T0) as Hh. fold T1 in Hh.
    destruct T1 as [|h r]; [constructor|].
    apply Qle_bool_false in Hh. inversion H1 as [|? ? _ Hf]; subst.
    constructor; [lra|].
    eapply Forall_impl; [|exact Hf]. intros y Hy. simpl in Hy. lra. }
  set (D := drop_while (fun t => Qltb x1 t) (rev T1)).
  destruct (drop_while_suffix (fun t => Qltb x1 t) (rev T1)) as [d Hd]. fold D in Hd.
  assert (HT1 : T1 = rev D ++ rev d).
  { rewrite <- rev_app_distr, <- Hd, rev_involutive. reflexivity. }
  exists (rev D). split; [reflexivity|].
  rewrite HT1 in H1, H1b. apply Forall_app in H1b. destruct H1b as [H1b _].
  destruct (SSorted_app_inv _ _ H1) as [HD _].
  constructor.
  - apply SSorted_snoc; [exact HD|].
    pose proof (drop_while_head (fun t => Qltb x1 t) (rev T1)) as Hh. fold D in Hh.
    destruct D as [|h r]; [constructor|].
    assert (Hh' : h <= x1).
    { unfold Qltb in Hh. apply negb_false_iff, Qle_bool_iff in Hh. exact Hh. }
    simpl in HD |- *. pose proof (SSorted_snoc_bound _ _ HD) as Hb.
    apply Forall_app; split; [|constructor; [exact Hh' | constructor]].
    eapply Forall_impl; [|exact Hb]. intros y Hy. simpl in Hy. lra.
  - apply Forall_app; split; [exact H1b | constructor; [exact Hle | constructor]].
Qed.

End HistogramCounts.

Section HistogramTotals.

Import DistributionChart.
Local Open Scope Q_scope.



End HistogramTotals.

Section HistogramFlat.

Import DistributionChart.
Local Open Scope Q_scope.


Lemma count_in_empty_bin (x0 x1 : Q) (l : list Q) :
  x1 <= x0 -> count_in (x0, x1) l = 0%nat.
Proof.
  intros Hle. unfold count_in. induction l as [|w l IH]; [reflexivity|].
  simpl. destruct (in_bin (x0, x1) w) eqn:E; [|exact IH].
  unfold in_bin in E. cbn [fst snd] in E. apply andb_true_iff in E.
  destruct E as [E1 E2]. apply Qle_bool_iff in E1. apply Qltb_iff in E2. lra.
Qed.

Lemma fold_Qmin_flat (l : list Q) (x v : Q) :
  x == v -> Forall (fun w => w == v) l -> fold_left Qmin l x == v.
Proof.
  revert x. induction l as [|y l IH]; intros x Hx Hl; simpl; [exact Hx|].
  inversion Hl; subst. apply IH; [|assumption].
  destruct (Q.min_dec x y) as [E|E]; rewrite E; assumption.
Qed.

Lemma fold_Qmax_flat (l : list Q) (x v : Q) :
  x == v -> Forall (fun w => w == v) l -> fold_left Qmax l x == v.
Proof.
  revert x. induction l as [|y l IH]; intros x Hx Hl; simpl; [exact Hx|].
  inversion Hl; subst. apply IH; [|assumption].
  destruct (Q.max_dec x y) as [E|E]; rewrite E; assumption.
Qed.

(** when every estimate of both series has the same value [v], the
    histogram is a single bin centred on [round v] that counts nothing. *)
Theorem histogram_flat_data (naive mvue : list Q) (v : Q) (vs : list Q) :
  naive ++ mvue = v :: vs ->
  Forall (fun w => w == v) vs ->
  histogramData naive mvue =
    Some [{| estimate := round v; naive_count := 0%nat; mvue_count := 0%nat |}].
Proof.
  intros Hall Hvs. unfold histogramData. rewrite Hall.
  assert (Hmin : list_min v vs == v) by (apply fold_Qmin_flat; [reflexivity | exact Hvs]).
  assert (Hmax : list_max v vs == v) by (apply fold_Qmax_flat; [reflexivity | exact Hvs]).
  set (x0 := list_min v vs) in *. set (x1 := list_max v vs) in *.
  assert (He : bin_edges x0 x1 = [(x0, x1)]).
  { unfold bin_edges, ticks.
    assert (Hc : Qltb 0 50 = true) by reflexivity. rewrite Hc. simpl negb. cbv iota.
    assert (Heq : Qeq_bool x0 x1 = true) by (apply Qeq_bool_iff; lra).
    rewrite Heq. unfold last_opt. simpl rev. cbv iota.
    assert (Hl : Qle_bool x1 x0 = true) by (apply Qle_bool_iff; lra).
    rewrite Hl. reflexivity. }
  rewrite He. cbn [map fst snd].
  rewrite !count_in_empty_bin by lra.
  replace (round ((x0 + x1) / 2)) with (round v); [reflexivity|].
  unfold round. apply Qfloor_comp. rewrite Hmin, Hmax. field.
Qed.

End HistogramFlat.

Section HistogramFlatWitness.

Import DistributionChart.
Local Open Scope Q_scope.

Lemma histogram_flat_data_witness :
  ([100; 100] ++ [200 # 2; 100] = 100 :: [100; 200 # 2; 100] /\
   Forall (fun w => w == 100) [100; 200 # 2; 100]) /\
  histogramData [100; 100] [200 # 2; 100] =
    Some [{| estimate := round 100; naive_count := 0%nat; mvue_count := 0%nat |}].
Proof.
  split; [split; [reflexivity | repeat constructor] |].
  apply (histogram_flat_data [100; 100] [200 # 2; 100] 100 [100; 200 # 2; 100]).
  - reflexivity.
  - repeat constructor.
Defined.

End HistogramFlatWitness.

(** ** The submit handler of App *)

Section HandleSimulateProps.

Import App.

Variables SimulationResponse AccuracyResponse : Type.
Variable runSimulation : Z -> Z -> Thrown + SimulationResponse.
Variable getAccuracyAnalysis : Z -> list Z -> Thrown + AccuracyResponse.

(** once [handleSimulate] has finished, the loading flag is down; an
    error is shown exactly when one of the two requests threw (an error of an
    earlier run never survives); and the accuracy request is sent, after the
    simulation request, exactly when the simulation request resolved. *)
Theorem handleSimulate_settles (st : AppState SimulationResponse AccuracyResponse)
    (N k : Z) :
  let '(st', sent) := handleSimulate runSimulation getAccuracyAnalysis st N k in
  isLoading st' = false /\
  (error st' = None <->
   (exists r, runSimulation N k = inr r) /\
   (exists a, getAccuracyAnalysis N (sampleSizes k) = inr a)) /\
  (sent = [PostSimulate N k] /\ (exists e, runSimulation N k = inl e) \/
   sent = [PostSimulate N k; PostAccuracy N (sampleSizes k)] /\
   (exists r, runSimulation N k = inr r)).
Proof.
  unfold handleSimulate; cbn [simulationData accuracyData isLoading error].
  destruct (runSimulation N k) as [e | r] eqn:Hr;
    [|destruct (getAccuracyAnalysis N (sampleSizes k)) as [e' | a] eqn:Ha];
    cbn [simulationData accuracyData isLoading error];
    (split; [reflexivity|]); split.
  - split; [discriminate|]. intros [[r Hr'] _]. discriminate.
  - left. split; [reflexivity | exists e; reflexivity].
  - split; [discriminate|]. intros [_ [a Ha']]. discriminate.
  - right. split; [reflexivity | exists r; reflexivity].
  - split; [intros _; split; [exists r | exists a]; reflexivity | reflexivity].
  - right. split; [reflexivity | exists r; reflexivity].
Qed.

End HandleSimulateProps.


(** ** The posterior chart's points (BayesianChart) *)

Section ChartPoints.

Import Bayesian.

Lemma map_index_points (post : list Q) (ns : list nat) (i : nat) :
  map probability
      (map_index (fun j v => {| n := Z.of_nat v;
                                probability := nth_error post j |}) i ns) =
  map (fun j => nth_error post j) (seq i (List.length ns)) /\
  map n (map_index (fun j v => {| n := Z.of_nat v;
                                  probability := nth_error post j |}) i ns) =
  map Z.of_nat ns.
Proof.
  revert i. induction ns as [|v ns IH]; intros i; simpl; [split; reflexivity|].
  destruct (IH (S i)) as [H1 H2]. rewrite H1, H2. split; reflexivity.
Qed.

Lemma map_nth_error_seq (post : list Q) (m : nat) :
  map (fun j => nth_error post j) (seq 0 m) =
  map Some (firstn m post) ++ repeat None (m - List.length post).
Proof.
  revert m. induction post as [|x post IH]; intros m.
  - rewrite firstn_nil. simpl. rewrite Nat.sub_0_r. generalize 0%nat.
    induction m as [|m IHm]; intros a; simpl; [reflexivity|].
    rewrite IHm. destruct a; reflexivity.
  - destruct m as [|m]; simpl; [reflexivity|].
    rewrite <- seq_shift, map_map. simpl. rewrite IH. reflexivity.
Qed.

(** [chartData] makes one point per entry of [n_values], in order, at
    [x = n_values[i]]; the [i]-th point carries [posterior[i]], and when
    [posterior] is shorter the remaining points carry no probability
    ([undefined]); extra posterior entries are not plotted. *)
Theorem chartData_points (d : PosteriorDistribution) :
  map n (chartData d) = map Z.of_nat (n_values d) /\
  map probability (chartData d) =
    map Some (firstn (List.length (n_values d)) (posterior d)) ++
    repeat None (List.length (n_values d) - List.length (posterior d)).
Proof.
  unfold chartData.
  destruct (map_index_points (posterior d) (n_values d) 0) as [H1 H2].
  split; [exact H2|]. rewrite H1. apply map_nth_error_seq.
Qed.

End ChartPoints.

(** ** The order of the histogram's bars *)

Section HistogramOrder.

Import DistributionChart.
Local Open Scope Q_scope.

Lemma round_mono (x y : Q) : x <= y -> (round x <= round y)%Z.
Proof. intros H. unfold round. apply Qfloor_resp_le. lra. Qed.

Lemma mid_le (a b c d : Q) : a <= c -> b <= d -> (a + b) / 2 <= (c + d) / 2.
Proof.
  intros H1 H2. unfold Qdiv. apply Qmult_le_compat_r; [lra | now compute].
Qed.

Lemma chain_midpoints_sorted (x0 x1 : Q) (tz : list Q) :
  StronglySorted Qle (x0 :: tz ++ [x1]) ->
  Sorted Z.le (map (fun e => round ((fst e + snd e) / 2))
                   (combine (x0 :: tz) (tz ++ [x1]))).
Proof.
  revert x0. induction tz as [|t tz IH]; intros x0 Hs; simpl.
  - repeat constructor.
  - inversion Hs as [|? ? Hs' Hf]; subst.
    assert (Hx0t : x0 <= t) by (inversion Hf; assumption).
    specialize (IH t Hs'). simpl in IH.
    constructor; [exact IH|].
    inversion Hs' as [|? ? Hs'' Hf']; subst.
    destruct tz as [|t' tz]; simpl in Hf' |- *; constructor; cbn [fst snd];
      apply round_mono.
    + inversion Hf' as [|? ? Hx1 _]; subst. apply mid_le; lra.
    + inversion Hf' as [|? ? Ht' _]; subst. apply mid_le; lra.
Qed.

(** On non-empty data, [histogramData] yields at least one bin, and the
    bins come in ascending order of their [estimate] labels. *)
Theorem histogram_bins_ascending (naive mvue : list Q) (v : Q) (vs : list Q) :
  naive ++ mvue = v :: vs ->
  exists bins, histogramData naive mvue = Some bins /\ bins <> [] /\
    Sorted Z.le (map estimate bins).
Proof.
  intros Hall. unfold histogramData. rewrite Hall.
  eexists; split; [reflexivity|].
  destruct (fold_Qmin_bound vs v) as [Hmv _].
  destruct (fold_Qmax_bound vs v) as [HMv _].
  assert (Hle : list_min v vs <= list_max v vs) by (unfold list_min, list_max; lra).
  destruct (bin_edges_chain _ _ Hle) as [tz [He Hs]]. rewrite He.
  split.
  - destruct tz; simpl; discriminate.
  - rewrite map_map. cbn [estimate]. apply chain_midpoints_sorted. exact Hs.
Qed.

Lemma histogram_bins_ascending_witness :
  [50; 80] ++ [74; 119] = 50 :: [80; 74; 119] /\
  exists bins, histogramData [50; 80] [74; 119] = Some bins /\ bins <> [] /\
    Sorted Z.le (map estimate bins).
Proof.
  split; [reflexivity|].
  apply (histogram_bins_ascending [50; 80] [74; 119] 50 [80; 74; 119]).
  reflexivity.
Defined.

End HistogramOrder.

End Extras.
